(** * XmlBuilder: serialising a node tree to an XML document string

    A shallow embedding of [lib/XmlBuilder.js] (class [XmlBuilder] with the
    methods [build], [_build] and [_escapeString]) together with the lodash
    functions it calls, and the properties of the serializer. *)

From Stdlib Require Import String Ascii List ZArith Lia Bool Arith DecimalString.
From Equations Require Import Equations.
Import ListNotations.

Local Open Scope list_scope.
Local Open Scope string_scope.
Set Warnings "-register-all".

(** ** JavaScript values *)

Module JS.

(** The values a node tree is made of: the primitives, arrays and plain
    objects.  A string is a sequence of code units ([ascii] stands for the
    code unit; the characters the builder tests and writes are all ASCII), an
    object is the list of its own enumerable string-keyed properties in
    enumeration order (the key looked up is the first one found), a number
    is an integer-valued double.
    Objects are plain data: no property is a method, and an object is
    converted to a string by the [Object.prototype.toString] it inherits.
    Two kinds of values are written by this type and lie outside what the
    definitions below describe: an object with an own property called
    [toString] (its conversion to a string throws a TypeError in
    JavaScript; see [plain] and [ToString_checked]) and a number that is
    not a safe integer (see [isSafeInteger]). *)
Inductive value : Type :=
| VUndefined
| VNull
| VBool (b : bool)
| VNum (n : Z)
| VStr (s : string)
| VArr (items : list value)
| VObj (props : list (string * value)).

(** The double quote character, and a string made of one code unit. *)
Definition dquote : string := String "034"%char EmptyString.
Definition char (c : ascii) : string := String c EmptyString.

(** [Number.prototype.toString] on an integer: decimal digits with a leading
    minus sign.  This is what JavaScript writes for a safe integer; beyond
    2^53 a double holds a rounded value and is written with the shortest
    digits that identify it, in exponent notation from 1e21, which this
    definition does not follow. *)
Definition Number_toString (n : Z) : string := NilZero.string_of_int (Z.to_int n).

(** [Number.isSafeInteger]: the integers a double holds exactly, with exact
    successor and predecessor. *)
Definition isSafeInteger (n : Z) : bool :=
  (-9007199254740991 <=? n)%Z && (n <=? 9007199254740991)%Z.

(** [Array.prototype.join]. *)
Fixpoint join (sep : string) (l : list string) : string :=
  match l with
  | [] => ""
  | [x] => x
  | x :: rest => x ++ sep ++ join sep rest
  end.

Definition isNullish (v : value) : bool :=
  match v with
  | VUndefined | VNull => true
  | _ => false
  end.

(** The abstract operation ToString, which string concatenation and template
    literals apply to their operands.  On a value that is neither [null] nor
    [undefined] the method call [value.toString()] gives the same string. *)
Fixpoint ToString (v : value) : string :=
  match v with
  | VUndefined => "undefined"
  | VNull => "null"
  | VBool true => "true"
  | VBool false => "false"
  | VNum n => Number_toString n
  | VStr s => s
  | VArr items =>
      join "," (map (fun e => if isNullish e then "" else ToString e) items)
  | VObj _ => "[object Object]"
  end.

(** ToBoolean: what [!x], [x && y] and [if (x)] test. *)
Definition truthy (v : value) : bool :=
  match v with
  | VUndefined | VNull => false
  | VBool b => b
  | VNum n => negb (n =? 0)%Z
  | VStr s => negb (s =? "")
  | VArr _ | VObj _ => true
  end.

(** Own property lookup on a list of properties; a missing property reads
    as [undefined]. *)
Fixpoint lookup (props : list (string * value)) (key : string) : value :=
  match props with
  | [] => VUndefined
  | (k, v) :: rest => if k =? key then v else lookup rest key
  end.

(** The property read [o.key] for the keys the builder reads ([name],
    [attributes], [children]): arrays and primitives have no such property. *)
Definition get (o : value) (key : string) : value :=
  match o with
  | VObj props => lookup props key
  | _ => VUndefined
  end.

(** [s[i]] on a string: the code unit at [i], or [undefined]. *)
Definition charAt (s : string) (i : nat) : value :=
  match String.get i s with
  | Some c => VStr (char c)
  | None => VUndefined
  end.

(** [String.prototype.replace] with a global one-character pattern [/c/g]
    and a replacement text without [$] patterns: every occurrence of [c] is
    replaced, left to right, and replacements are not scanned again. *)
Fixpoint replace (c : ascii) (by_ : string) (s : string) : string :=
  match s with
  | EmptyString => EmptyString
  | String a rest =>
      if Ascii.eqb a c then by_ ++ replace c by_ rest
      else String a (replace c by_ rest)
  end.

(** The code units of a string as one-character strings, and the decimal
    key of an index. *)
Definition chars (s : string) : list value :=
  map (fun c => VStr (char c)) (list_ascii_of_string s).

Definition index_key (i : nat) : string := Number_toString (Z.of_nat i).

Fixpoint indexed_from {A : Type} (i : nat) (l : list A) : list (string * A) :=
  match l with
  | [] => []
  | x :: rest => (index_key i, x) :: indexed_from (S i) rest
  end.

(** [Object.prototype.hasOwnProperty]. *)
Fixpoint has_own (props : list (string * value)) (key : string) : bool :=
  match props with
  | [] => false
  | (k, _) :: rest => (k =? key) || has_own rest key
  end.

(** Plain data: no object in the value, at any depth, has an own property
    called [toString].  Such a property would be found in place of the
    inherited method and, not being a function, make [value.toString()] and
    the conversion of a template literal throw a TypeError. *)
Fixpoint plain (v : value) : bool :=
  match v with
  | VArr items => forallb plain items
  | VObj props =>
      negb (has_own props "toString") && forallb (fun p => plain (snd p)) props
  | _ => true
  end.

(** The conversion to a string with its error: [None] stands for the
    TypeError thrown on an object whose own [toString] is not a function,
    also when an array meets such an object among its elements. *)
Fixpoint ToString_checked (v : value) : option string :=
  match v with
  | VObj props =>
      if has_own props "toString" then None else Some "[object Object]"
  | VArr items =>
      option_map (join ",")
        ((fix each (l : list value) : option (list string) :=
            match l with
            | [] => Some []
            | e :: rest =>
                match (if isNullish e then Some "" else ToString_checked e),
                      each rest with
                | Some s, Some ss => Some (s :: ss)
                | _, _ => None
                end
            end) items)
  | _ => Some (ToString v)
  end.

(** Number of nodes of a value, the measure of the recursive traversal. *)
Fixpoint size (v : value) : nat :=
  match v with
  | VArr items => S (list_sum (map size items))
  | VObj props => S (list_sum (map (fun p => size (snd p)) props))
  | _ => 1
  end.

End JS.

(** ** The lodash functions the builder calls

    [XmlBuilder.js] uses [_.isObject], [_.isNil], [_.isEmpty], [_.forOwn]
    and [_.forEach] of lodash 4; they are written here as lodash defines
    them, on the values above. *)

Module Lodash.
Import JS.

(** [_.isObject]: objects and arrays (and nothing else among the values). *)
Definition isObject (v : value) : bool :=
  match v with
  | VArr _ | VObj _ => true
  | _ => false
  end.

(** [_.isNil]: [null] or [undefined]. *)
Definition isNil (v : value) : bool := isNullish v.

(** [isLength]: a number that can be the length of an array-like. *)
Definition isLength (v : value) : bool :=
  match v with
  | VNum n => (0 <=? n)%Z && (n <=? 9007199254740991)%Z
  | _ => false
  end.

(** [isArrayLike]: not nil, not a function, with a valid [length]. *)
Definition isArrayLike (v : value) : bool :=
  match v with
  | VArr _ | VStr _ => true
  | VObj props => isLength (lookup props "length")
  | _ => false
  end.

(** [_.isEmpty]: nil is empty; an array or a string is empty when its length
    is 0; any other value is empty when it has no own enumerable key. *)
Definition isEmpty (v : value) : bool :=
  match v with
  | VUndefined | VNull => true
  | VArr items => match items with [] => true | _ => false end
  | VStr s => match s with EmptyString => true | _ => false end
  | VBool _ | VNum _ => true
  | VObj props => match props with [] => true | _ => false end
  end.

(** The own enumerable properties [keys] lists, with their values: the
    indices of an array or a string, the properties of an object, nothing for
    the other primitives. *)
Definition entries (v : value) : list (string * value) :=
  match v with
  | VObj props => props
  | VArr items => indexed_from 0 items
  | VStr s => indexed_from 0 (chars s)
  | _ => []
  end.

(** [_.forOwn(object, iteratee)] is [object && baseForOwn(object, iteratee)]:
    the iteratee is called with (value, key) for each own property.  The
    iteratee of the builder updates the captured [xml], which is threaded
    here as the accumulator. *)
Definition forOwn {A : Type} (object : value) (iteratee : value -> string -> A -> A)
    (acc : A) : A :=
  if truthy object
  then fold_left (fun a kv => iteratee (snd kv) (fst kv) a) (entries object) acc
  else acc.

(** The elements [_.forEach] visits: the items of an array; for another
    array-like, the values at the indices below its length (the code units
    of a string; for an object, missing indices read as [undefined]); for
    an object that is not array-like, the values of its own properties. *)
Definition elements (collection : value) : list value :=
  match collection with
  | VArr items => items
  | VStr s => chars s
  | VObj props =>
      if isArrayLike collection
      then match lookup props "length" with
           | VNum n => map (fun i => lookup props (index_key i)) (seq 0 (Z.to_nat n))
           | _ => []
           end
      else map snd props
  | _ => []
  end.

End Lodash.

(** ** The class XmlBuilder *)

Module XmlBuilder.
Import JS Lodash.

(** The fields of an instance: the node counter [_i] and the last flatten
    probe [_c].  The counter of the code is a double: it is an integer, and
    [_i++] adds exactly 1, as long as it stays between 0 and
    [MAX_EXACT_COUNTER] (2^53); the record describes an instance in that
    range, whose [_i] has been assigned, as [build] does before any read. *)
Record instance : Type := { _i : Z; _c : value }.

(** The exception [new Error(message)]. *)
Record Error : Type := { message : string }.

(** How a method call completes: it returns, or it throws. *)
Inductive completion (A : Type) : Type :=
| Return (a : A)
| Throw (e : Error).
Arguments Return {A} a.
Arguments Throw {A} e.

(** A method body: a function of the instance ([this]) to the updated
    instance and the completion. *)
Definition method (A : Type) : Type := instance -> instance * completion A.

Definition ret {A : Type} (a : A) : method A := fun this => (this, Return a).

Definition throw {A : Type} (e : Error) : method A := fun this => (this, Throw e).

Definition bind {A B : Type} (m : method A) (k : A -> method B) : method B :=
  fun this =>
    match m this with
    | (this', Return a) => k a this'
    | (this', Throw e) => (this', Throw e)
    end.

Notation "x <- m ;; k" := (bind m (fun x => k))
  (at level 61, m at next level, right associativity).
Notation "m ;;; k" := (bind m (fun _ => k))
  (at level 61, right associativity).
Notation "this |> m" := (m this) (at level 62, only parsing).

(** The result of a call, the instance aside. *)
Definition outcome {A : Type} (r : instance * completion A) : completion A := snd r.

(** [<?xml version="1.0" encoding="UTF-8" standalone="yes"?>] *)
Definition XML_DECLARATION : string :=
  "<?xml version=" ++ dquote ++ "1.0" ++ dquote ++ " encoding=" ++ dquote
    ++ "UTF-8" ++ dquote ++ " standalone=" ++ dquote ++ "yes" ++ dquote ++ "?>".

Definition MISSING_NAME : Error := {| message := "XML node does not have name" |}.

(** [_escapeString(value)]: nil is returned as it is; any other value is
    converted with [toString()] and the five replacements are applied in
    turn, each to the whole string. *)
Definition _escapeString (value_ : value) : value :=
  if isNil value_ then value_
  else VStr (replace ">" "&gt;"
            (replace "<" "&lt;"
            (replace "'" "&apos;"
            (replace "034" "&quot;"
            (replace "&" "&amp;" (ToString value_)))))).

Definition MAX_EXACT_COUNTER : Z := 9007199254740992.

(** [if (this._i++ % 100000 === 0) this._c = xml[0];] *)
Definition flatten_probe (xml : string) : method unit :=
  fun this =>
    let i := _i this in
    let this := {| _i := i + 1; _c := _c this |} in
    if (Z.rem i 100000 =? 0)%Z
    then ({| _i := _i this; _c := charAt xml 0 |}, Return tt)
    else (this, Return tt).

(** The iteratee of [_.forOwn(node.attributes, ...)]:
    [xml += ` ${name}="${this._escapeString(value)}"`]. *)
Definition add_attribute (value_ : value) (name : string) (xml : string) : string :=
  xml ++ " " ++ name ++ "=" ++ dquote ++ ToString (_escapeString value_) ++ dquote.

(** [_.forEach(collection, iteratee)] for an iteratee that assigns its
    result to the captured [xml] and may throw.  [forEach_in] is the same
    loop with the iteratee told that its argument is an element of the
    collection, which the recursion of [_build] needs. *)
Fixpoint forEach_list (l : list value) (iteratee : value -> string -> method string)
    (xml : string) : method string :=
  match l with
  | [] => ret xml
  | child :: rest => xml' <- iteratee child xml ;; forEach_list rest iteratee xml'
  end.

Definition forEach (collection : value) (iteratee : value -> string -> method string)
    (xml : string) : method string :=
  forEach_list (elements collection) iteratee xml.

Fixpoint forEach_in (l : list value) :
    (forall child : value, In child l -> string -> method string) ->
    string -> method string :=
  match l with
  | [] => fun _ xml => ret xml
  | child :: rest => fun iteratee xml =>
      xml' <- iteratee child (or_introl eq_refl) xml ;;
      forEach_in rest (fun c H => iteratee c (or_intror H)) xml'
  end.

(** [_build(node, xml)], the recursive method.  Every child visited is
    smaller than its parent, so the recursion is well founded. *)
Equations? _build (node : value) (xml : string) (this : instance) :
    instance * completion string by wf (size node) lt :=
_build node xml this := this |>
  flatten_probe xml ;;;
  if isObject node then
    if negb (truthy (get node "name")) then throw MISSING_NAME
    else
      let xml := xml ++ "<" ++ ToString (get node "name") in
      let xml := forOwn (get node "attributes") add_attribute xml in
      if isEmpty (get node "children") then ret (xml ++ "/>")
      else
        let xml := xml ++ ">" in
        xml <- forEach_in (elements (get node "children"))
                 (fun child _ xml this => _build child xml this) xml ;;
        ret (xml ++ "</" ++ ToString (get node "name") ++ ">")
  else ret (xml ++ ToString (_escapeString node)).
Proof.
  destruct node as [| | | |s|items|props]; simpl in *; try tauto.
  assert (Hsum : forall (l : list nat) (n : nat), In n l -> n <= list_sum l).
  { intros l; induction l as [|y l IH]; simpl; [tauto|].
    intros n [->|H]; [lia|]. specialize (IH n H). lia. }
  assert (Hlook : forall ps key, lookup ps key = VUndefined \/
            size (lookup ps key) <= list_sum (map (fun p => size (snd p)) ps)).
  { intros ps key. induction ps as [|[k v] rest IH]; simpl; [now left|].
    destruct (k =? key); [right; simpl; lia|].
    destruct IH as [IH|IH]; [now left|right; simpl; lia]. }
  assert (Hel : forall v, In child (elements v) -> v <> VUndefined /\ size child <= size v).
  { intros v. destruct v as [| | | |s|items|ps]; simpl; try tauto.
    - unfold chars. rewrite in_map_iff. intros (c & <- & _). simpl. split; [discriminate|lia].
    - intros H. split; [discriminate|]. apply (in_map size), Hsum in H. lia.
    - intros H. split; [discriminate|].
      destruct (isLength (lookup ps "length")).
      + destruct (lookup ps "length"); simpl in H; try tauto.
        apply in_map_iff in H. destruct H as (j & <- & _).
        clear. induction ps as [|[k v] rest IH]; simpl; [lia|].
        destruct (k =? index_key j); simpl in *; lia.
      + apply in_map_iff in H. destruct H as ([k x] & <- & H). simpl.
        apply (in_map (fun p => size (snd p))), Hsum in H. simpl in H. lia. }
  match goal with H : In child _ |- _ => apply Hel in H; destruct H as [Hne Hle] end.
  destruct (Hlook props "children") as [E|E]; [congruence|lia].
Qed.

(** [build(node)]: reset the counter, then render the node after the XML
    declaration. *)
Definition build (node : value) : method string :=
  fun this => {| _i := 0; _c := _c this |} |> _build node XML_DECLARATION.

(** The instance [_build] starts from in a call of [build] on a new
    instance: the counter is 0 and nothing has been probed. *)
Definition new_XmlBuilder : instance := {| _i := 0; _c := VUndefined |}.

(** *** Notions the properties are stated with *)

(** The text [_build] appends for a node: what it returns from the empty
    string. *)
Definition render (node : value) : completion string :=
  outcome (_build node "" new_XmlBuilder).

(** The renderings of a sequence of nodes, one after the other; the first
    one that throws aborts the sequence. *)
Fixpoint render_all (l : list value) : completion string :=
  match l with
  | [] => Return ""
  | child :: rest =>
      match render child with
      | Return s =>
          match render_all rest with
          | Return t => Return (s ++ t)
          | Throw e => Throw e
          end
      | Throw e => Throw e
      end
  end.

(** A completion with [xml] put in front of the returned text. *)
Definition prepend (xml : string) (r : completion string) : completion string :=
  match r with
  | Return s => Return (xml ++ s)
  | Throw e => Throw e
  end.

(** The text of the attributes of an element: what the [_.forOwn] loop
    appends. *)
Definition attributes_text (attributes : value) : string :=
  forOwn attributes add_attribute "".

(** The start of the opening tag of an element: [<name] and the
    attributes. *)
Definition open_tag (node : value) : string :=
  "<" ++ ToString (get node "name") ++ attributes_text (get node "attributes").

(** The body of [_build] read as a function of the rendering [kids] of the
    children. *)
Definition element_text (node : value) (kids : completion string) : completion string :=
  if negb (truthy (get node "name")) then Throw MISSING_NAME
  else if isEmpty (get node "children") then Return (open_tag node ++ "/>")
  else match kids with
       | Return body =>
           Return (open_tag node ++ ">" ++ body
                     ++ "</" ++ ToString (get node "name") ++ ">")
       | Throw e => Throw e
       end.

Definition node_text (node : value) (kids : completion string) : completion string :=
  if isObject node then element_text node kids
  else Return (ToString (_escapeString node)).

(** The nodes of the tree [_build] walks from [root]: the root, and the
    elements of the [children] collection of every object node. *)
Inductive traversed (root : value) : value -> Prop :=
| traversed_root : traversed root root
| traversed_child (parent child : value) :
    traversed root parent ->
    isObject parent = true ->
    In child (elements (get parent "children")) ->
    traversed root child.

(** An element node without a name: an object whose [name] is falsy. *)
Definition nameless (node : value) : Prop :=
  isObject node = true /\ truthy (get node "name") = false.

(** What one application of [_escapeString] does to a string. *)
Definition escape (s : string) : string := ToString (_escapeString (VStr s)).

(** The entity a single code unit is escaped to. *)
Definition escape_char (c : ascii) : string :=
  if Ascii.eqb c "&" then "&amp;"
  else if Ascii.eqb c "034" then "&quot;"
  else if Ascii.eqb c "'" then "&apos;"
  else if Ascii.eqb c "<" then "&lt;"
  else if Ascii.eqb c ">" then "&gt;"
  else char c.

(** Every code unit of a string escaped on its own. *)
Fixpoint escape_each (s : string) : string :=
  match s with
  | EmptyString => EmptyString
  | String c rest => escape_char c ++ escape_each rest
  end.

Definition special (c : ascii) : bool :=
  Ascii.eqb c "&" || Ascii.eqb c "034" || Ascii.eqb c "'" || Ascii.eqb c "<"
  || Ascii.eqb c ">".

Fixpoint has_special (s : string) : bool :=
  match s with
  | EmptyString => false
  | String c rest => special c || has_special rest
  end.

(** XML unescaping: one scan from the left that replaces each reference to
    a predefined entity ([&amp;] [&quot;] [&apos;] [&lt;] [&gt;]) by its
    character and copies every other character. *)
Fixpoint starts_with (p s : string) : bool :=
  match p, s with
  | EmptyString, _ => true
  | String _ _, EmptyString => false
  | String a p', String b s' => Ascii.eqb a b && starts_with p' s'
  end.

Definition entity_at (s : string) : option (ascii * nat) :=
  if starts_with "&amp;" s then Some ("&"%char, 5)
  else if starts_with "&quot;" s then Some ("034"%char, 6)
  else if starts_with "&apos;" s then Some ("'"%char, 6)
  else if starts_with "&lt;" s then Some ("<"%char, 4)
  else if starts_with "&gt;" s then Some (">"%char, 4)
  else None.

Fixpoint unescape_from (skip : nat) (s : string) : string :=
  match s with
  | EmptyString => EmptyString
  | String c rest =>
      match skip with
      | S k => unescape_from k rest
      | O =>
          match entity_at s with
          | Some (ch, len) => String ch (unescape_from (pred len) rest)
          | None => String c (unescape_from 0 rest)
          end
      end
  end.

Definition xml_unescape (s : string) : string := unescape_from 0 s.

(** *** Notions of the further properties *)

(** The characters that delimit markup and attribute values: [<], [>], the
    double quote and the apostrophe. *)
Definition markup (c : ascii) : bool :=
  Ascii.eqb c "<" || Ascii.eqb c ">" || Ascii.eqb c "034" || Ascii.eqb c "'".

Fixpoint has_markup (s : string) : bool :=
  match s with
  | EmptyString => false
  | String c rest => markup c || has_markup rest
  end.


(** How far a call of [_build] on [node] advances the counter [_i]: the
    number of calls of [_build] it makes, itself included. *)
Definition visits (node : value) : Z := _i (fst (_build node "" new_XmlBuilder)).

(** The calls made for a sequence of children: the loop stops at the first
    child that throws. *)
Fixpoint visits_all (l : list value) : Z :=
  match l with
  | [] => 0
  | child :: rest =>
      match render child with
      | Return _ => visits child + visits_all rest
      | Throw _ => visits child
      end
  end.

(** The calls [_build] makes on a node, from those it makes on the
    children. *)
Definition visits_of_children (node : value) : Z :=
  if isObject node && truthy (get node "name") && negb (isEmpty (get node "children"))
  then (1 + visits_all (elements (get node "children")))%Z
  else 1%Z.

End XmlBuilder.

(** * Properties *)

Import JS Lodash XmlBuilder.

(** ** Strings *)

Section Strings.

Lemma append_nil_r (s : string) : s ++ "" = s.
Proof. induction s as [|c s IH]; simpl; [reflexivity|now rewrite IH]. Qed.

Lemma append_assoc (s t u : string) : (s ++ t) ++ u = s ++ (t ++ u).
Proof. induction s as [|c s IH]; simpl; [reflexivity|now rewrite IH]. Qed.


End Strings.

Create Rewrite HintDb str.
#[local] Hint Rewrite append_nil_r append_assoc : str.

(** ** The method monad *)

Section Method.

Context {A B : Type}.

Lemma outcome_bind (m : method A) (k : A -> method B) (this : instance) :
  outcome (bind m k this) =
  match outcome (m this) with
  | Return a => outcome (k a (fst (m this)))
  | Throw e => Throw e
  end.
Proof.
  unfold bind, outcome. destruct (m this) as [this' [a|e]]; reflexivity.
Qed.

Lemma bind_ret (a : A) (k : A -> method B) (this : instance) :
  bind (ret a) k this = k a this.
Proof. reflexivity. Qed.

End Method.

Lemma flatten_probe_returns (xml : string) (this : instance) :
  outcome (flatten_probe xml this) = Return tt.
Proof.
  unfold flatten_probe, outcome. simpl.
  destruct (Z.rem (_i this) 100000 =? 0)%Z; reflexivity.
Qed.

Lemma flatten_probe_counts (xml : string) (this : instance) :
  _i (fst (flatten_probe xml this)) = (_i this + 1)%Z.
Proof.
  unfold flatten_probe. simpl.
  destruct (Z.rem (_i this) 100000 =? 0)%Z; reflexivity.
Qed.

(** ** The recursive method, as the source writes it *)

Lemma forEach_in_forEach_list (l : list value)
    (iteratee : value -> string -> method string) (xml : string) (this : instance) :
  forEach_in l (fun child _ => iteratee child) xml this = forEach_list l iteratee xml this.
Proof.
  revert xml this. induction l as [|child rest IH]; intros xml this; simpl.
  - reflexivity.
  - unfold bind. destruct (iteratee child xml this) as [this' [xml'|e]]; [|reflexivity].
    apply IH.
Qed.

(** The body of [_build], with the loop over the children written with
    [_.forEach]. *)
Lemma _build_eq (node : value) (xml : string) (this : instance) :
  _build node xml this =
  (this |>
   flatten_probe xml ;;;
   if isObject node then
     if negb (truthy (get node "name")) then throw MISSING_NAME
     else
       let xml := xml ++ "<" ++ ToString (get node "name") in
       let xml := forOwn (get node "attributes") add_attribute xml in
       if isEmpty (get node "children") then ret (xml ++ "/>")
       else
         let xml := xml ++ ">" in
         xml <- forEach (get node "children") _build xml ;;
         ret (xml ++ "</" ++ ToString (get node "name") ++ ">")
   else ret (xml ++ ToString (_escapeString node))).
Proof.
  rewrite _build_equation_1. unfold bind.
  destruct (flatten_probe xml this) as [this' [[]|e]]; [|reflexivity].
  destruct (isObject node); [|reflexivity].
  destruct (negb (truthy (get node "name"))); [reflexivity|].
  cbv zeta. destruct (isEmpty (get node "children")); [reflexivity|].
  unfold forEach.
  rewrite (forEach_in_forEach_list (elements (get node "children")) _build).
  reflexivity.
Qed.

(** Induction over the tree the builder walks: a property holds of every
    node when it holds of a node as soon as it holds of the elements of its
    [children]. *)
Lemma children_ind (P : value -> Prop) :
  (forall node : value,
     (forall child : value, In child (elements (get node "children")) -> P child) ->
     P node) ->
  forall node : value, P node.
Proof.
  intros step node.
  apply (_build_elim (fun n _ _ _ => P n)); [|exact ""|exact new_XmlBuilder].
  intros n xml this IH. apply step. intros child Hin.
  exact (IH tt child Hin "" new_XmlBuilder).
Qed.

(** ** The text a node is rendered to *)

Lemma forOwn_add_attribute (attributes : value) (xml : string) :
  forOwn attributes add_attribute xml = xml ++ attributes_text attributes.
Proof.
  unfold attributes_text, forOwn. destruct (truthy attributes).
  - generalize (entries attributes). intros l. revert xml.
    induction l as [|[k v] l IH]; intros xml; simpl.
    + now rewrite append_nil_r.
    + rewrite IH. rewrite (IH (add_attribute v k "")).
      unfold add_attribute. rewrite append_assoc. reflexivity.
  - now rewrite append_nil_r.
Qed.

Lemma forEach_list_outcome (l : list value) :
  (forall child, In child l ->
     forall xml this, outcome (_build child xml this) = prepend xml (render child)) ->
  forall xml this,
    outcome (forEach_list l _build xml this) = prepend xml (render_all l).
Proof.
  induction l as [|child rest IH]; intros H xml this; simpl.
  - now rewrite append_nil_r.
  - rewrite outcome_bind, (H child (or_introl eq_refl)).
    destruct (render child) as [s|e]; simpl; [|reflexivity].
    rewrite IH by (intros c Hc; apply H; now right).
    destruct (render_all rest) as [t|e]; simpl; [|reflexivity].
    now rewrite append_assoc.
Qed.

Lemma _build_outcome_step (node : value) :
  (forall child, In child (elements (get node "children")) ->
     forall xml this, outcome (_build child xml this) = prepend xml (render child)) ->
  forall xml this,
    outcome (_build node xml this) =
    prepend xml (node_text node (render_all (elements (get node "children")))).
Proof.
  intros IH xml this. rewrite _build_eq, outcome_bind, flatten_probe_returns.
  unfold node_text, element_text, open_tag.
  destruct (isObject node); [|reflexivity].
  destruct (negb (truthy (get node "name"))); [reflexivity|].
  cbv zeta. rewrite forOwn_add_attribute.
  destruct (isEmpty (get node "children")).
  - unfold ret, outcome; simpl. now rewrite !append_assoc.
  - rewrite outcome_bind. unfold forEach. rewrite (forEach_list_outcome _ IH).
    destruct (render_all (elements (get node "children"))) as [body|e]; simpl;
      [|reflexivity].
    unfold ret, outcome; simpl. f_equal. now rewrite !append_assoc.
Qed.

(** [_build] appends the rendering of the node to [xml], whatever the
    instance holds. *)
Lemma _build_outcome (node : value) (xml : string) (this : instance) :
  outcome (_build node xml this) = prepend xml (render node).
Proof.
  revert xml this. induction node as [node IH] using children_ind.
  intros xml this. rewrite (_build_outcome_step node IH).
  unfold render. rewrite (_build_outcome_step node IH).
  destruct (node_text node _); simpl; reflexivity.
Qed.

(** The rendering of a node, from the renderings of its children. *)
Lemma render_eq (node : value) :
  render node = node_text node (render_all (elements (get node "children"))).
Proof.
  unfold render at 1. rewrite _build_outcome_step.
  - destruct (node_text node _); reflexivity.
  - intros child _ xml this. apply _build_outcome.
Qed.

Lemma build_outcome (node : value) (this : instance) :
  outcome (build node this) = prepend XML_DECLARATION (render node).
Proof. unfold build. apply _build_outcome. Qed.

(** The serializer on a few documents. *)

Example build_attribute :
  outcome (build (VObj [("name", VStr "a"); ("attributes", VObj [("x", VStr "1&2")])])
             new_XmlBuilder)
  = Return (XML_DECLARATION ++ "<a x=" ++ dquote ++ "1&amp;2" ++ dquote ++ "/>").
Proof. vm_compute. reflexivity. Qed.

Example build_text_child :
  outcome (build (VObj [("name", VStr "p"); ("children", VArr [VStr "hello <b>"])])
             new_XmlBuilder)
  = Return (XML_DECLARATION ++ "<p>hello &lt;b&gt;</p>").
Proof. vm_compute. reflexivity. Qed.

Example build_element_children :
  outcome (build (VObj [("name", VStr "root");
                        ("children", VArr [VObj [("name", VStr "child1")];
                                           VObj [("name", VStr "child2")]])])
             new_XmlBuilder)
  = Return (XML_DECLARATION ++ "<root><child1/><child2/></root>").
Proof. vm_compute. reflexivity. Qed.

Example build_scalars :
  outcome (build (VObj [("name", VStr "n"); ("attributes", VObj [("k", VNum 7)]);
                        ("children", VArr [VNum (-12); VBool true; VStr ""])])
             new_XmlBuilder)
  = Return (XML_DECLARATION ++ "<n k=" ++ dquote ++ "7" ++ dquote ++ ">-12true</n>").
Proof. vm_compute. reflexivity. Qed.

Example build_counts_nodes :
  fst (build (VObj [("name", VStr "root");
                    ("children", VArr [VObj [("name", VStr "child1")]; VStr "t"])])
         {| _i := 41; _c := VUndefined |})
  = {| _i := 3; _c := VStr "<" |}.
Proof. vm_compute. reflexivity. Qed.

Example build_nested_nameless :
  build (VObj [("name", VStr "root");
               ("children", VArr [VStr "t"; VObj [("children", VArr [VStr "u"])];
                                  VStr "v"])])
    new_XmlBuilder
  = ({| _i := 3; _c := VStr "<" |}, Throw MISSING_NAME).
Proof. vm_compute. reflexivity. Qed.

(** ** Escaping *)

Lemma replace_append (c : ascii) (by_ s t : string) :
  replace c by_ (s ++ t) = replace c by_ s ++ replace c by_ t.
Proof.
  induction s as [|a s IH]; simpl; [reflexivity|].
  destruct (Ascii.eqb a c); simpl; rewrite IH; [now rewrite append_assoc|reflexivity].
Qed.

Lemma escape_unfold (s : string) :
  escape s =
  replace ">" "&gt;" (replace "<" "&lt;" (replace "'" "&apos;"
    (replace "034" "&quot;" (replace "&" "&amp;" s)))).
Proof. reflexivity. Qed.

Lemma escape_char_single (c : ascii) : escape (char c) = escape_char c.
Proof.
  rewrite escape_unfold. unfold escape_char, char. simpl.
  destruct (Ascii.eqb c "&"); [reflexivity|]. simpl.
  destruct (Ascii.eqb c "034"); [reflexivity|]. simpl.
  destruct (Ascii.eqb c "'"); [reflexivity|]. simpl.
  destruct (Ascii.eqb c "<"); [reflexivity|]. simpl.
  destruct (Ascii.eqb c ">"); reflexivity.
Qed.

Lemma escape_append (s t : string) : escape (s ++ t) = escape s ++ escape t.
Proof. rewrite !escape_unfold. now rewrite !replace_append. Qed.

(** One application of the five replacements escapes every code unit on its
    own: no replacement touches the text an earlier one has written. *)
Lemma escape_escape_each (s : string) : escape s = escape_each s.
Proof.
  induction s as [|c s IH]; [reflexivity|].
  change (String c s) with (char c ++ s).
  rewrite escape_append, escape_char_single, IH. reflexivity.
Qed.

Lemma special_cases (c : ascii) :
  special c = false ->
  c <> "&"%char /\ escape_char c = char c.
Proof.
  unfold special, escape_char. intros H.
  destruct (Ascii.eqb c "&") eqn:Hamp; [discriminate|].
  split; [now apply Ascii.eqb_neq|].
  destruct (Ascii.eqb c "034"); [discriminate|].
  destruct (Ascii.eqb c "'"); [discriminate|].
  destruct (Ascii.eqb c "<"); [discriminate|].
  destruct (Ascii.eqb c ">"); [discriminate|reflexivity].
Qed.

Lemma special_inv (c : ascii) :
  special c = true ->
  c = "&"%char \/ c = "034"%char \/ c = "'"%char \/ c = "<"%char \/ c = ">"%char.
Proof.
  unfold special. rewrite !orb_true_iff, !Ascii.eqb_eq. tauto.
Qed.

Lemma entity_at_plain (c : ascii) (rest : string) :
  c <> "&"%char -> entity_at (String c rest) = None.
Proof.
  intros Hc. unfold entity_at. cbn [starts_with].
  assert (E : Ascii.eqb "&" c = false) by (apply Ascii.eqb_neq; congruence).
  now rewrite E.
Qed.

(** Unescaping undoes the escape of one code unit in front of any text. *)
Lemma unescape_escape_char (c : ascii) (rest : string) :
  unescape_from 0 (escape_char c ++ rest) = String c (unescape_from 0 rest).
Proof.
  destruct (special c) eqn:Hs.
  - apply special_inv in Hs.
    destruct Hs as [->|[->|[->|[->| ->]]]]; reflexivity.
  - apply special_cases in Hs. destruct Hs as [Hamp ->].
    unfold char. cbn [append unescape_from].
    now rewrite entity_at_plain.
Qed.

Lemma unescape_escape_each (s : string) : xml_unescape (escape_each s) = s.
Proof.
  unfold xml_unescape. induction s as [|c s IH]; [reflexivity|].
  cbn [escape_each]. now rewrite unescape_escape_char, IH.
Qed.

(** C4: for every string, [_escapeString] applies the five replacements
    ([&] first, then the double quote, the apostrophe, [<] and [>], each to
    the whole string), and XML-unescaping its result gives the string back. *)
Theorem escape_unescape_roundtrip (s : string) :
  _escapeString (VStr s) =
    VStr (replace ">" "&gt;" (replace "<" "&lt;" (replace "'" "&apos;"
           (replace "034" "&quot;" (replace "&" "&amp;" s)))))
  /\ xml_unescape (escape s) = s.
Proof.
  split; [reflexivity|].
  rewrite escape_escape_each. apply unescape_escape_each.
Qed.

Lemma length_append (s t : string) :
  String.length (s ++ t) = String.length s + String.length t.
Proof. induction s as [|c s IH]; simpl; [reflexivity|now rewrite IH]. Qed.

Lemma has_special_append (s t : string) :
  has_special (s ++ t) = has_special s || has_special t.
Proof.
  induction s as [|c s IH]; simpl; [reflexivity|].
  now rewrite IH, orb_assoc.
Qed.

Lemma escape_char_length (c : ascii) :
  1 <= String.length (escape_char c) /\
  (special c = true ->
   2 <= String.length (escape_char c) /\ has_special (escape_char c) = true).
Proof.
  split.
  - destruct (special c) eqn:Hs.
    + apply special_inv in Hs.
      destruct Hs as [->|[->|[->|[->| ->]]]]; simpl; lia.
    + apply special_cases in Hs. destruct Hs as [_ ->]. simpl. lia.
  - intros Hs. apply special_inv in Hs.
    destruct Hs as [->|[->|[->|[->| ->]]]]; simpl; split; (lia || reflexivity).
Qed.

Lemma escape_each_plain (s : string) : has_special s = false -> escape_each s = s.
Proof.
  induction s as [|c s IH]; simpl; [reflexivity|].
  intros H. apply orb_false_iff in H. destruct H as [Hc Hs].
  apply special_cases in Hc. destruct Hc as [_ ->]. now rewrite IH.
Qed.

Lemma escape_each_grows (s : string) :
  String.length s <= String.length (escape_each s) /\
  (has_special s = true ->
   String.length s < String.length (escape_each s) /\
   has_special (escape_each s) = true).
Proof.
  induction s as [|c s [IHle IHlt]]; simpl.
  - split; [lia|discriminate].
  - rewrite length_append, has_special_append.
    destruct (escape_char_length c) as [H1 H2]. split; [lia|].
    intros H. apply orb_true_iff in H. destruct H as [Hc|Hs].
    + destruct (H2 Hc) as [H3 H4]. rewrite H4. split; [lia|reflexivity].
    + destruct (IHlt Hs) as [H3 H4]. rewrite H4, orb_true_r. split; [lia|reflexivity].
Qed.

(** C7 (as the code has it): one application of the escape function escapes
    every character exactly once, whatever the replacements before it wrote
    (the [&] of an entity is not escaped again within the application); a
    second application does escape the [&] of every entity again, so that
    escaping twice equals escaping once exactly on the strings that contain
    none of the five special characters. *)
Theorem escape_once_not_idempotent (s : string) :
  escape s = escape_each s /\
  (escape (escape s) = escape s <-> has_special s = false).
Proof.
  split; [apply escape_escape_each|].
  rewrite !escape_escape_each. split.
  - intros H. destruct (has_special s) eqn:Hs; [|reflexivity].
    destruct (escape_each_grows s) as [_ H1]. destruct (H1 Hs) as [_ H2].
    destruct (escape_each_grows (escape_each s)) as [_ H3].
    destruct (H3 H2) as [H4 _]. rewrite H in H4. lia.
  - intros Hs. now rewrite (escape_each_plain s Hs), (escape_each_plain s Hs).
Qed.

(** C7, as stated, fails on the string [&]: its escape is [&amp;], and the
    escape of that is [&amp;amp;]. *)
Lemma escape_twice_counterexample :
  _escapeString (_escapeString (VStr "&")) = VStr "&amp;amp;" /\
  _escapeString (VStr "&") = VStr "&amp;" /\
  _escapeString (_escapeString (VStr "&")) <> _escapeString (VStr "&").
Proof. split; [reflexivity|split; [reflexivity|discriminate]]. Qed.

(** ** The document *)



(** ** Missing names *)

Lemma nameless_render (node : value) : nameless node -> render node = Throw MISSING_NAME.
Proof.
  intros [Hobj Hname]. rewrite render_eq. unfold node_text, element_text.
  now rewrite Hobj, Hname.
Qed.

(** C9: a value that [_.isObject] accepts, arrays included, is rendered as
    an element, and [_build], hence [build], throws the missing-name error
    when the [name] of such a node is falsy: absent, the empty string, 0,
    [false] or nil.  An array has no [name], so [build] throws on it. *)
Theorem falsy_name_throws (node : value) (xml : string) (this : instance)
    (Hobj : isObject node = true) (Hname : truthy (get node "name") = false) :
  (outcome (_build node xml this) = Throw MISSING_NAME /\
   outcome (build node this) = Throw MISSING_NAME) /\
  (truthy VUndefined = false /\ truthy (VStr "") = false /\ truthy (VNum 0) = false /\
   truthy (VBool false) = false /\ truthy VNull = false) /\
  (forall items : list value,
     isObject (VArr items) = true /\
     outcome (build (VArr items) this) = Throw MISSING_NAME).
Proof.
  assert (Hthrow : forall n, nameless n -> forall x t,
            outcome (_build n x t) = Throw MISSING_NAME).
  { intros n Hn x t. now rewrite _build_outcome, (nameless_render n Hn). }
  split; [|split].
  - split; [|unfold build]; apply Hthrow; now split.
  - repeat split.
  - intros items. split; [reflexivity|].
    unfold build. apply Hthrow. now split.
Qed.

Lemma falsy_name_throws_witness :
  isObject (VObj [("name", VNum 0)]) = true /\
  truthy (get (VObj [("name", VNum 0)]) "name") = false /\
  outcome (build (VObj [("name", VNum 0)]) new_XmlBuilder) = Throw MISSING_NAME.
Proof.
  split; [reflexivity|]. split; [reflexivity|].
  exact (proj2 (proj1 (falsy_name_throws (VObj [("name", VNum 0)]) ""
                         new_XmlBuilder eq_refl eq_refl))).
Defined.

(** ** Nil values *)

(** C5 (as the code has it): a nil text child is passed through
    [_escapeString] as it is and the concatenation then converts it to a
    string, so that [null] is rendered as the word null and [undefined] as
    the word undefined. *)
Theorem nil_text_is_stringified (v : value) (xml : string) (this : instance)
    (Hnil : isNil v = true) :
  _escapeString v = v /\
  outcome (_build v xml this) = Return (xml ++ ToString v) /\
  (ToString v = "null" \/ ToString v = "undefined").
Proof.
  destruct v; try discriminate Hnil.
  - split; [reflexivity|]. split; [|now right].
    rewrite _build_outcome, render_eq. reflexivity.
  - split; [reflexivity|]. split; [|now left].
    rewrite _build_outcome, render_eq. reflexivity.
Qed.

Lemma nil_text_is_stringified_witness :
  isNil VNull = true /\
  outcome (_build VNull "<p>" new_XmlBuilder) = Return ("<p>" ++ "null").
Proof.
  split; [reflexivity|].
  exact (proj1 (proj2 (nil_text_is_stringified VNull "<p>" new_XmlBuilder eq_refl))).
Defined.

(** C5, as stated, fails on [{name: "p", children: [null]}]: the content of
    the element is the word null, not the empty text. *)
Lemma nil_text_counterexample :
  outcome (build (VObj [("name", VStr "p"); ("children", VArr [VNull])]) new_XmlBuilder)
    = Return (XML_DECLARATION ++ "<p>null</p>") /\
  outcome (build (VObj [("name", VStr "p"); ("children", VArr [VNull])]) new_XmlBuilder)
    <> Return (XML_DECLARATION ++ "<p></p>").
Proof. split; [vm_compute; reflexivity|vm_compute; discriminate]. Qed.

Lemma fold_add_attribute (l : list (string * value)) (xml : string) :
  fold_left (fun a kv => add_attribute (snd kv) (fst kv) a) l xml =
  xml ++ fold_left (fun a kv => add_attribute (snd kv) (fst kv) a) l "".
Proof.
  revert xml. induction l as [|[k v] l IH]; intros xml; simpl.
  - now rewrite append_nil_r.
  - rewrite IH, (IH (add_attribute v k "")).
    unfold add_attribute. rewrite append_assoc. reflexivity.
Qed.

Lemma attributes_text_app (pre post : list (string * value)) :
  attributes_text (VObj (pre ++ post)) =
  attributes_text (VObj pre) ++ attributes_text (VObj post).
Proof.
  unfold attributes_text, forOwn. simpl.
  rewrite fold_left_app. apply fold_add_attribute.
Qed.

Lemma render_starts_with_open_tag (node : value) (s : string) :
  isObject node = true -> render node = Return s ->
  exists rest, s = open_tag node ++ rest.
Proof.
  intros Hobj. rewrite render_eq. unfold node_text, element_text. rewrite Hobj.
  destruct (negb (truthy (get node "name"))); [discriminate|].
  destruct (isEmpty (get node "children")).
  - intros H. injection H as <-. now exists "/>".
  - destruct (render_all _) as [body|e]; [|discriminate].
    intros H. injection H as <-. eexists. reflexivity.
Qed.

(** C6 (as the code has it): an attribute whose value is nil is still
    written, with its key, between the attributes before and after it; its
    value is the nil passed through [_escapeString] and converted by the
    template, that is the word null or the word undefined between the
    quotes. *)
Theorem nil_attribute_is_stringified (node : value) (pre post : list (string * value))
    (k : string) (v : value)
    (Hobj : isObject node = true)
    (Hattrs : get node "attributes" = VObj (pre ++ (k, v) :: post))
    (Hnil : isNil v = true) :
  (ToString v = "null" \/ ToString v = "undefined") /\
  open_tag node =
    "<" ++ ToString (get node "name") ++ attributes_text (VObj pre)
      ++ " " ++ k ++ "=" ++ dquote ++ ToString v ++ dquote
      ++ attributes_text (VObj post) /\
  (forall s, render node = Return s -> exists rest, s = open_tag node ++ rest).
Proof.
  split; [|split].
  - destruct v; try discriminate Hnil; [now right|now left].
  - unfold open_tag. rewrite Hattrs.
    change (pre ++ (k, v) :: post)%list with (pre ++ [(k, v)] ++ post)%list.
    rewrite !attributes_text_app.
    replace (attributes_text (VObj [(k, v)]))
      with (" " ++ k ++ "=" ++ dquote ++ ToString v ++ dquote).
    + now rewrite !append_assoc.
    + destruct v; try discriminate Hnil; reflexivity.
  - intros s. now apply render_starts_with_open_tag.
Qed.

Lemma nil_attribute_is_stringified_witness :
  isObject (VObj [("name", VStr "a"); ("attributes", VObj [("x", VNull)])]) = true /\
  isNil VNull = true /\
  open_tag (VObj [("name", VStr "a"); ("attributes", VObj [("x", VNull)])]) =
    "<" ++ "a" ++ "" ++ " " ++ "x" ++ "=" ++ dquote ++ "null" ++ dquote ++ "".
Proof.
  split; [reflexivity|]. split; [reflexivity|].
  exact (proj1 (proj2 (nil_attribute_is_stringified
           (VObj [("name", VStr "a"); ("attributes", VObj [("x", VNull)])])
           [] [] "x" VNull eq_refl eq_refl eq_refl))).
Defined.

(** C6, as stated, fails on [{name: "a", attributes: {x: null}}]: the value
    written for [x] is the word null, not the empty string. *)
Lemma nil_attribute_counterexample :
  outcome (build (VObj [("name", VStr "a"); ("attributes", VObj [("x", VNull)])])
             new_XmlBuilder)
    = Return (XML_DECLARATION ++ "<a x=" ++ dquote ++ "null" ++ dquote ++ "/>") /\
  outcome (build (VObj [("name", VStr "a"); ("attributes", VObj [("x", VNull)])])
             new_XmlBuilder)
    <> Return (XML_DECLARATION ++ "<a x=" ++ dquote ++ dquote ++ "/>").
Proof. split; [vm_compute; reflexivity|vm_compute; discriminate]. Qed.

(** ** Determinism *)

(** C8: [build] sets the counter to 0 before it renders; the completion of
    [_build], and so of [build], does not depend on what the instance holds
    (the counter, and so whether the flatten probe fires, and the probed
    character); two calls of [build] on the same node, on any two
    instances or one after the other on the same instance, complete
    alike. *)
Theorem build_deterministic (node : value) (this1 this2 : instance) :
  build node this1 = _build node XML_DECLARATION {| _i := 0; _c := _c this1 |} /\
  (forall xml, outcome (flatten_probe xml this1) = Return tt /\
               _i (fst (flatten_probe xml this1)) = (_i this1 + 1)%Z) /\
  (forall xml, outcome (_build node xml this1) = outcome (_build node xml this2)) /\
  outcome (build node this1) = outcome (build node this2) /\
  outcome (build node (fst (build node this1))) = outcome (build node this1).
Proof.
  split; [reflexivity|].
  split; [intros xml; split; [apply flatten_probe_returns|apply flatten_probe_counts]|].
  split; [intros xml; now rewrite !_build_outcome|].
  now rewrite !build_outcome.
Qed.

(** ** The missing-name error *)

(** On plain data the conversion to a string does not throw, and gives the
    string [ToString] computes. *)
Lemma plain_ToString_checked (v : value) :
  plain v = true -> ToString_checked v = Some (ToString v).
Proof.
  revert v. fix IH 1. intros [| | | |s|items|props] H; try reflexivity.
  - cbn [ToString_checked ToString]. cbn [plain] in H.
    match goal with
    | |- option_map _ (?each items) = _ =>
        assert (Heach : each items
                  = Some (map (fun e => if isNullish e then "" else ToString e) items))
    end.
    { induction items as [|e rest IHl]; [reflexivity|].
      cbn [forallb] in H. apply andb_true_iff in H. destruct H as [He Hrest].
      cbn [map]. rewrite (IHl Hrest).
      destruct (isNullish e); [reflexivity|]. now rewrite (IH e He). }
    now rewrite Heach.
  - cbn [ToString_checked ToString]. cbn [plain] in H.
    apply andb_true_iff in H. destruct H as [Hown _].
    apply negb_true_iff in Hown. now rewrite Hown.
Qed.

Example shadowed_toString_throws :
  ToString_checked (VObj [("toString", VNum 1)]) = None /\
  ToString_checked (VArr [VNum 1; VObj [("toString", VNum 1)]]) = None /\
  plain (VObj [("name", VStr "a");
               ("attributes", VObj [("x", VObj [("toString", VNum 1)])])]) = false.
Proof. repeat split. Qed.

Lemma isEmpty_elements (v : value) : isEmpty v = true -> elements v = [].
Proof.
  destruct v as [| | | |s|items|props]; simpl; try reflexivity.
  - destruct s; [reflexivity|discriminate].
  - destruct items; [reflexivity|discriminate].
  - destruct props; [reflexivity|discriminate].
Qed.

Lemma render_all_throw_inv (l : list value) (e : Error) :
  render_all l = Throw e -> exists child, In child l /\ render child = Throw e.
Proof.
  induction l as [|c rest IH]; simpl; [discriminate|].
  destruct (render c) as [s|e'] eqn:Hc.
  - destruct (render_all rest) as [t|e'']; [discriminate|].
    intros H. injection H as ->. destruct (IH eq_refl) as (child & Hin & Hr).
    exists child. split; [now right|exact Hr].
  - intros H. injection H as ->. exists c. split; [now left|exact Hc].
Qed.

Lemma render_all_throws (l : list value) (child : value) (e : Error) :
  In child l -> render child = Throw e -> exists e', render_all l = Throw e'.
Proof.
  induction l as [|c rest IH]; simpl; [tauto|].
  intros [->|Hin] Hr.
  - rewrite Hr. now exists e.
  - destruct (render c) as [s|e1]; [|now exists e1].
    destruct (IH Hin Hr) as [e2 ->]. now exists e2.
Qed.

Lemma traversed_from_child (node child m : value) :
  isObject node = true -> In child (elements (get node "children")) ->
  traversed child m -> traversed node m.
Proof.
  intros Hobj Hin Ht. induction Ht as [|parent c Ht IH Hp Hc].
  - apply (traversed_child node node child); [constructor|exact Hobj|exact Hin].
  - apply (traversed_child node parent c); assumption.
Qed.

Lemma render_throw_inv (node : value) (e : Error) :
  render node = Throw e ->
  e = MISSING_NAME /\ exists m, traversed node m /\ nameless m.
Proof.
  revert e. induction node as [node IH] using children_ind. intros e.
  rewrite render_eq. unfold node_text, element_text.
  destruct (isObject node) eqn:Hobj; [|discriminate].
  destruct (truthy (get node "name")) eqn:Hname; simpl.
  - destruct (isEmpty (get node "children")); [discriminate|].
    destruct (render_all _) as [body|e'] eqn:Hall; [discriminate|].
    intros H. injection H as ->.
    apply render_all_throw_inv in Hall. destruct Hall as (child & Hin & Hr).
    destruct (IH child Hin e Hr) as (He & m & Ht & Hm).
    split; [exact He|]. exists m. split; [|exact Hm].
    now apply (traversed_from_child node child m).
  - intros H. injection H as <-. split; [reflexivity|].
    exists node. split; [constructor|now split].
Qed.

Lemma traversed_throw (node m : value) :
  traversed node m -> (exists e, render m = Throw e) -> exists e, render node = Throw e.
Proof.
  intros Ht. induction Ht as [|parent child Ht IH Hobj Hin]; [tauto|].
  intros [e Hr]. apply IH.
  rewrite render_eq. unfold node_text, element_text. rewrite Hobj.
  destruct (negb (truthy (get parent "name"))); [now eexists|].
  destruct (isEmpty (get parent "children")) eqn:Hempty.
  - apply isEmpty_elements in Hempty. rewrite Hempty in Hin. destruct Hin.
  - destruct (render_all_throws _ child e Hin Hr) as [e' ->]. now exists e'.
Qed.

(** C2 (as the code has it): on a tree of plain data, where no conversion
    to a string can throw, [build] throws exactly when some object node of
    the tree it walks, at any depth, has a falsy [name]; what it throws is
    then always the one error, whose message is
    [XML node does not have name], and the call completes with that error
    and returns no string. *)
Theorem build_throws_iff_nameless (node : value) (this : instance)
    (Hplain : plain node = true) :
  (outcome (build node this) = Throw MISSING_NAME <->
   exists m, traversed node m /\ nameless m) /\
  (forall e, outcome (build node this) = Throw e -> e = MISSING_NAME) /\
  message MISSING_NAME = "XML node does not have name" /\
  (forall s, outcome (build node this) = Return s ->
     forall m, traversed node m -> ~ nameless m) /\
  (forall m xml this', nameless m ->
     _build m xml this' = (fst (flatten_probe xml this'), Throw MISSING_NAME)).
Proof.
  rewrite build_outcome.
  assert (Hiff : (exists e, render node = Throw e) <->
                 exists m, traversed node m /\ nameless m).
  { split.
    - intros [e He]. now apply render_throw_inv in He.
    - intros (m & Ht & Hm). apply (traversed_throw node m Ht).
      exists MISSING_NAME. now apply nameless_render. }
  split; [|split; [|split; [|split]]].
  - rewrite <- Hiff. split.
    + intros H. exists MISSING_NAME. now destruct (render node).
    + intros [e He]. destruct (render_throw_inv node e He) as [-> _].
      now rewrite He.
  - intros e H. destruct (render node) as [s|e'] eqn:Hr; [discriminate|].
    injection H as ->. now destruct (render_throw_inv node e Hr).
  - reflexivity.
  - intros s H m Ht Hm.
    destruct (proj2 Hiff (ex_intro _ m (conj Ht Hm))) as [e He].
    rewrite He in H. discriminate.
  - intros m xml this' [Hobj Hname]. rewrite _build_eq. unfold bind.
    destruct (flatten_probe xml this') as [t [[]|e]] eqn:Hp.
    + now rewrite Hobj, Hname.
    + pose proof (flatten_probe_returns xml this') as Hr.
      rewrite Hp in Hr. discriminate Hr.
Qed.

Lemma build_throws_iff_nameless_witness :
  plain (VObj [("name", VStr "root");
               ("children", VArr [VStr "t"; VObj [("children", VArr [VStr "u"])]])])
    = true /\
  (outcome (build (VObj [("name", VStr "root");
                         ("children",
                          VArr [VStr "t"; VObj [("children", VArr [VStr "u"])]])])
              new_XmlBuilder) = Throw MISSING_NAME <->
   exists m,
     traversed (VObj [("name", VStr "root");
                      ("children",
                       VArr [VStr "t"; VObj [("children", VArr [VStr "u"])]])]) m /\
     nameless m).
Proof.
  split; [reflexivity|].
  exact (proj1 (build_throws_iff_nameless
                  (VObj [("name", VStr "root");
                         ("children",
                          VArr [VStr "t"; VObj [("children", VArr [VStr "u"])]])])
                  new_XmlBuilder eq_refl)).
Defined.

(** C2, as stated, fails on the node [{}]: it has no name, and the error
    [build] throws does not carry the message [XML node missing name]. *)
Lemma missing_name_message_counterexample :
  (exists m, traversed (VObj []) m /\ nameless m) /\
  outcome (build (VObj []) new_XmlBuilder)
    = Throw {| message := "XML node does not have name" |} /\
  outcome (build (VObj []) new_XmlBuilder)
    <> Throw {| message := "XML node missing name" |}.
Proof.
  split; [|split].
  - exists (VObj []). split; [constructor|split; reflexivity].
  - vm_compute; reflexivity.
  - vm_compute; discriminate.
Qed.

(** ** Elements with and without children *)





(** ** A string as the children *)

Lemma render_text (node : value) :
  isObject node = false -> render node = Return (ToString (_escapeString node)).
Proof. intros H. rewrite render_eq. unfold node_text. now rewrite H. Qed.




(** * Further properties of the serializer *)

(** ** The escape function *)

Lemma has_markup_append (s t : string) :
  has_markup (s ++ t) = has_markup s || has_markup t.
Proof.
  induction s as [|c s IH]; simpl; [reflexivity|].
  now rewrite IH, orb_assoc.
Qed.

Lemma markup_special (c : ascii) : markup c = true -> special c = true.
Proof.
  unfold markup, special. rewrite !orb_true_iff. tauto.
Qed.

Lemma escape_char_no_markup (c : ascii) : has_markup (escape_char c) = false.
Proof.
  destruct (special c) eqn:Hs.
  - apply special_inv in Hs.
    destruct Hs as [->|[->|[->|[->| ->]]]]; reflexivity.
  - destruct (special_cases c Hs) as [_ ->]. simpl.
    destruct (markup c) eqn:Hm; [|reflexivity].
    apply markup_special in Hm. congruence.
Qed.

Lemma escape_each_no_markup (s : string) : has_markup (escape_each s) = false.
Proof.
  induction s as [|c s IH]; simpl; [reflexivity|].
  now rewrite has_markup_append, escape_char_no_markup, IH.
Qed.

(** X1: whatever the value, the text [_escapeString] contributes to the
    document (its result converted to a string) holds none of the
    characters [<], [>], double quote and apostrophe: a text node cannot
    open a tag and an attribute value cannot close its quotes. *)
Theorem escaped_value_has_no_markup (v : value) :
  has_markup (ToString (_escapeString v)) = false.
Proof.
  destruct (isNil v) eqn:Hnil.
  - destruct v; try discriminate Hnil; reflexivity.
  - change (ToString (_escapeString v)) with
      (ToString (if isNil v then v
                 else VStr (replace ">" "&gt;" (replace "<" "&lt;"
                        (replace "'" "&apos;" (replace "034" "&quot;"
                        (replace "&" "&amp;" (ToString v)))))))).
    rewrite Hnil. cbn [ToString]. rewrite <- escape_unfold, escape_escape_each.
    apply escape_each_no_markup.
Qed.

(** X2: the escape function leaves a string as it is exactly when the
    string holds none of the five special characters. *)
Theorem escape_fixes_plain_strings (s : string) :
  escape s = s <-> has_special s = false.
Proof.
  rewrite escape_escape_each. split.
  - intros H. destruct (has_special s) eqn:Hs; [|reflexivity].
    destruct (escape_each_grows s) as [_ Hlt]. destruct (Hlt Hs) as [Hlen _].
    rewrite H in Hlen. lia.
  - apply escape_each_plain.
Qed.

(** X3: the escape function is injective: two strings have the same escape
    only when they are the same string. *)
Theorem escape_injective (s t : string) : escape s = escape t <-> s = t.
Proof.
  split; [|now intros ->].
  rewrite !escape_escape_each. intros H.
  rewrite <- (unescape_escape_each s), <- (unescape_escape_each t).
  now rewrite H.
Qed.

(** X4: escaping commutes with concatenation: the escape of [s ++ t] is the
    escape of [s] followed by the escape of [t], and the empty string
    escapes to itself. *)
Theorem escape_concatenation (s t : string) :
  escape (s ++ t) = escape s ++ escape t /\ escape "" = "".
Proof. split; [apply escape_append|reflexivity]. Qed.

Lemma escape_char_at_most_six (c : ascii) : String.length (escape_char c) <= 6.
Proof.
  destruct (special c) eqn:Hs.
  - apply special_inv in Hs.
    destruct Hs as [->|[->|[->|[->| ->]]]]; simpl; lia.
  - destruct (special_cases c Hs) as [_ ->]. simpl. lia.
Qed.

(** X5: escaping never shortens a string and makes it at most six times as
    long. *)
Theorem escape_length_bounds (s : string) :
  String.length s <= String.length (escape s) <= 6 * String.length s.
Proof.
  rewrite escape_escape_each. split; [apply escape_each_grows|].
  induction s as [|c s IH]; simpl; [lia|].
  rewrite length_append. pose proof (escape_char_at_most_six c). lia.
Qed.

Lemma uint_digits_plain (d : Decimal.uint) :
  has_special (NilEmpty.string_of_uint d) = false.
Proof. induction d; simpl; auto. Qed.

Lemma Number_toString_plain (n : Z) : has_special (Number_toString n) = false.
Proof.
  unfold Number_toString, NilZero.string_of_int.
  assert (H : forall d, has_special (NilZero.string_of_uint d) = false).
  { intros d. unfold NilZero.string_of_uint.
    destruct d; try apply (uint_digits_plain (_ _)); reflexivity. }
  destruct (Z.to_int n) as [d|d]; simpl; [apply H|].
  apply H.
Qed.

(** X6: a number that is a safe integer, or a boolean, is escaped to its
    string form, unchanged: the decimal digits with a possible minus sign,
    [true] or [false]. *)
Theorem scalar_escapes_to_its_string (n : Z) (b : bool)
    (Hsafe : isSafeInteger n = true) :
  _escapeString (VNum n) = VStr (Number_toString n) /\
  _escapeString (VBool b) = VStr (if b then "true" else "false").
Proof.
  split.
  - change (_escapeString (VNum n)) with (VStr (escape (Number_toString n))).
    f_equal. rewrite escape_escape_each.
    apply escape_each_plain, Number_toString_plain.
  - destruct b; reflexivity.
Qed.

Lemma scalar_escapes_to_its_string_witness :
  isSafeInteger (-12) = true /\
  _escapeString (VNum (-12)) = VStr "-12" /\
  _escapeString (VBool true) = VStr "true".
Proof.
  split; [reflexivity|].
  exact (scalar_escapes_to_its_string (-12) true eq_refl).
Defined.

(** ** The node counter and the flatten probe *)

Lemma fst_bind {A B : Type} (m : method A) (k : A -> method B) (this : instance) :
  fst (bind m k this) =
  match outcome (m this) with
  | Return a => fst (k a (fst (m this)))
  | Throw _ => fst (m this)
  end.
Proof.
  unfold bind, outcome. destruct (m this) as [this' [a|e]]; reflexivity.
Qed.

Lemma forEach_list_counter (l : list value) :
  (forall child, In child l -> forall xml this,
     _i (fst (_build child xml this)) = (_i this + visits child)%Z) ->
  forall xml this,
    _i (fst (forEach_list l _build xml this)) = (_i this + visits_all l)%Z.
Proof.
  induction l as [|child rest IH]; intros H xml this; simpl.
  - lia.
  - rewrite fst_bind, _build_outcome.
    destruct (render child) as [s|e]; simpl.
    + rewrite IH by (intros c Hc; apply H; now right).
      rewrite (H child (or_introl eq_refl)). lia.
    + apply (H child (or_introl eq_refl)).
Qed.

Lemma _build_counter_step (node : value) :
  (forall child, In child (elements (get node "children")) -> forall xml this,
     _i (fst (_build child xml this)) = (_i this + visits child)%Z) ->
  forall xml this,
    _i (fst (_build node xml this)) = (_i this + visits_of_children node)%Z.
Proof.
  intros IH xml this. rewrite _build_eq, fst_bind, flatten_probe_returns.
  unfold visits_of_children.
  destruct (isObject node); cbn [andb negb]; [|apply flatten_probe_counts].
  destruct (truthy (get node "name")); cbn [andb negb]; [|apply flatten_probe_counts].
  destruct (isEmpty (get node "children")); cbn [andb negb];
    [apply flatten_probe_counts|].
  cbv zeta. rewrite fst_bind. unfold forEach.
  match goal with
  | |- context [outcome (forEach_list ?l _build ?x ?t)] =>
      rewrite (forEach_list_outcome l (fun c _ x' t' => _build_outcome c x' t') x t);
      destruct (prepend x (render_all l)) as [body|e]; unfold ret; cbn [fst];
      rewrite (forEach_list_counter l IH x t), flatten_probe_counts; lia
  end.
Qed.

Lemma _build_counter (node : value) (xml : string) (this : instance) :
  _i (fst (_build node xml this)) = (_i this + visits node)%Z.
Proof.
  revert xml this. induction node as [node IH] using children_ind.
  intros xml this. rewrite (_build_counter_step node IH).
  unfold visits. rewrite (_build_counter_step node IH).
  change (_i new_XmlBuilder) with 0%Z. lia.
Qed.

Lemma visits_eq (node : value) : visits node = visits_of_children node.
Proof.
  unfold visits at 1.
  rewrite (_build_counter_step node (fun c _ x t => _build_counter c x t)).
  change (_i new_XmlBuilder) with 0%Z. lia.
Qed.

Lemma visits_positive (node : value) : (1 <= visits node)%Z.
Proof.
  induction node as [node IH] using children_ind.
  rewrite visits_eq. unfold visits_of_children.
  destruct (_ && _); [|lia].
  assert (H : forall l, (forall c, In c l -> (1 <= visits c)%Z) -> (0 <= visits_all l)%Z).
  { intros l. induction l as [|c rest IHl]; intros Hl; simpl; [lia|].
    pose proof (Hl c (or_introl eq_refl)).
    destruct (render c); [|lia].
    assert (0 <= visits_all rest)%Z by (apply IHl; intros; apply Hl; now right). lia. }
  specialize (H _ IH). lia.
Qed.

(** X7: on plain data and where the counter is exact, that is from a
    counter that is not negative and with the calls to come stays within
    2^53, a call of
    [_build] advances [_i] by the number of calls of [_build] it makes,
    which depends on the node alone and not on the accumulated text or on
    where the counter stood; after [build] the counter is that number,
    which is at least 1. *)
Theorem counter_advances_by_visits (node : value) (xml : string) (this : instance)
    (Hplain : plain node = true)
    (Hstart : (0 <= _i this)%Z)
    (Hexact : (_i this + visits node <= MAX_EXACT_COUNTER)%Z) :
  _i (fst (_build node xml this)) = (_i this + visits node)%Z /\
  _i (fst (build node this)) = visits node /\
  (1 <= visits node)%Z.
Proof.
  split; [apply _build_counter|]. split; [|apply visits_positive].
  unfold build. rewrite _build_counter. reflexivity.
Qed.

Lemma counter_advances_by_visits_witness :
  plain (VObj [("name", VStr "r"); ("children", VArr [VStr "t"; VNum 7])]) = true /\
  (0 <= _i {| _i := 41; _c := VUndefined |})%Z /\
  (_i {| _i := 41; _c := VUndefined |}
   + visits (VObj [("name", VStr "r"); ("children", VArr [VStr "t"; VNum 7])])
   <= MAX_EXACT_COUNTER)%Z /\
  _i (fst (_build (VObj [("name", VStr "r"); ("children", VArr [VStr "t"; VNum 7])])
             "" {| _i := 41; _c := VUndefined |}))
    = (41 + visits (VObj [("name", VStr "r"); ("children", VArr [VStr "t"; VNum 7])]))%Z /\
  visits (VObj [("name", VStr "r"); ("children", VArr [VStr "t"; VNum 7])]) = 3%Z.
Proof.
  assert (Hv : visits (VObj [("name", VStr "r");
                             ("children", VArr [VStr "t"; VNum 7])]) = 3%Z)
    by (vm_compute; reflexivity).
  split; [reflexivity|].
  split; [cbn; lia|]. split; [rewrite Hv; cbn; unfold MAX_EXACT_COUNTER; lia|].
  split; [|exact Hv].
  refine (proj1 (counter_advances_by_visits
                   (VObj [("name", VStr "r"); ("children", VArr [VStr "t"; VNum 7])])
                   "" {| _i := 41; _c := VUndefined |} eq_refl _ _)).
  - cbn; lia.
  - rewrite Hv; cbn; unfold MAX_EXACT_COUNTER; lia.
Defined.





Lemma flatten_probe_first_char (c : ascii) (x : string) (this : instance) :
  Z.rem (_i this) 100000 = 0%Z \/ _c this = VStr (char c) ->
  _c (fst (flatten_probe (String c x) this)) = VStr (char c).
Proof.
  intros H. unfold flatten_probe. cbv zeta.
  destruct (Z.rem (_i this) 100000 =? 0)%Z eqn:E; [reflexivity|].
  apply Z.eqb_neq in E. cbn [fst _c]. tauto.
Qed.

Lemma forEach_list_first_char (l : list value) :
  (forall child, In child l -> forall c x this,
     _c this = VStr (char c) ->
     _c (fst (_build child (String c x) this)) = VStr (char c)) ->
  forall c x this,
    _c this = VStr (char c) ->
    _c (fst (forEach_list l _build (String c x) this)) = VStr (char c).
Proof.
  induction l as [|child rest IH]; intros H c x this Hc; [exact Hc|].
  cbn [forEach_list]. rewrite fst_bind, _build_outcome.
  pose proof (H child (or_introl eq_refl) c x this Hc) as Hchild.
  destruct (render child) as [s|e]; cbn [prepend append]; [|exact Hchild].
  apply IH; [|exact Hchild]. intros c' Hin. apply H. now right.
Qed.

Lemma _build_first_char (node : value) (c : ascii) (x : string) (this : instance) :
  Z.rem (_i this) 100000 = 0%Z \/ _c this = VStr (char c) ->
  _c (fst (_build node (String c x) this)) = VStr (char c).
Proof.
  revert c x this. induction node as [node IH] using children_ind.
  intros c x this H. apply (flatten_probe_first_char c x) in H.
  rewrite _build_eq, fst_bind, flatten_probe_returns.
  destruct (isObject node); [|exact H].
  destruct (negb (truthy (get node "name"))); [exact H|].
  cbv zeta. destruct (isEmpty (get node "children")); [exact H|].
  rewrite fst_bind, forOwn_add_attribute. unfold forEach. cbn [append].
  match goal with
  | |- context [forEach_list ?l _build (String c ?y) ?t] =>
      assert (Hl : _c (fst (forEach_list l _build (String c y) t)) = VStr (char c))
        by (apply forEach_list_first_char; [|exact H];
            intros child Hin c' x' t' Hc'; apply IH; [exact Hin|now right]);
      destruct (outcome (forEach_list l _build (String c y) t)); exact Hl
  end.
Qed.

(** X10: every flatten probe of a [build] reads the first character of the
    declaration: whatever the instance held and whether [build] returns or
    throws, the field [_c] is the string [<] afterwards. *)
Theorem probe_reads_first_character (node : value) (this : instance) :
  _c (fst (build node this)) = VStr "<".
Proof.
  unfold build.
  change XML_DECLARATION with (String "<"%char (substring 1 54 XML_DECLARATION)).
  apply (_build_first_char node "<"). now left.
Qed.

(** ** Attributes *)



(** ** Children that are not a sequence *)








(** ** A text node as the root *)

(** X15: [build] accepts a root that is not an object: it never throws on
    it, makes one call of [_build], and returns the declaration followed by
    the escaped string form of the value. *)
Theorem text_root_is_escaped (node : value) (this : instance)
    (Htext : isObject node = false) :
  outcome (build node this) = Return (XML_DECLARATION ++ ToString (_escapeString node)) /\
  _i (fst (build node this)) = 1%Z.
Proof.
  split.
  - now rewrite build_outcome, (render_text node Htext).
  - unfold build. rewrite _build_counter, visits_eq. unfold visits_of_children.
    now rewrite Htext.
Qed.

Lemma text_root_is_escaped_witness :
  isObject (VStr "a<b") = false /\
  outcome (build (VStr "a<b") new_XmlBuilder)
    = Return (XML_DECLARATION ++ ToString (_escapeString (VStr "a<b"))) /\
  _i (fst (build (VStr "a<b") new_XmlBuilder)) = 1%Z.
Proof.
  split; [reflexivity|].
  exact (text_root_is_escaped (VStr "a<b") new_XmlBuilder eq_refl).
Defined.
